(** * openhtf/__init__.py: the OpenHTF entry point

    A shallow embedding of the [TestPhase] decorator and of the [Test] class
    (construction, [plug_type_map], [AddOutputCallback], [OutputTestRecord]),
    followed by the properties of them that the specification states. *)

From stdpp Require Import gmap strings list fin_maps functions.
From Stdlib Require Import ZArith Permutation.

(** ** Values, exceptions, results *)

(** Objects are known by their identity: [is] and [is not] compare these. *)
Abbreviation loc := positive.

(** A plug type is a class object; two plug types are the same type exactly
    when they are the same object. *)
Abbreviation plug_type := positive.

(** The values the entry point stores without looking inside them. *)
Inductive pyval :=
| PyNone
| PyInt (n : Z)
| PyStr (s : string)
| PyRef (l : loc).

Definition is_not_None (v : pyval) : bool :=
  match v with PyNone => false | _ => true end.

Inductive exn :=
| InvalidTestPhaseError (phase_func : loc) (msg : string)
| DuplicatePlugError (msg : string)
| ExternalError (msg : string).   (* raised by a collaborator outside this file *)

Inductive result (A : Type) :=
| Return (a : A)
| Raise (e : exn).
Arguments Return {A} a.
Arguments Raise {A} e.

(** An exception raised by a step is raised by the whole sequence. *)
#[global] Instance result_bind : MBind result := fun A B k r =>
  match r with
  | Return a => k a
  | Raise e => Raise e
  end.

(** What a collaborator outside this file hands back: a value, or the
    message of the exception it raised. *)
Definition external {A} (r : string + A) : result A :=
  match r with
  | inr a => Return a
  | inl msg => Raise (ExternalError msg)
  end.

(** ** Phase functions *)

Module Phase.

(** [inspect.getargspec(f)]: the named positional parameters, the names of
    [*varargs] and [**keywords] when declared, and the default values (of
    the last parameters), empty for a function that declares none. *)
Record ArgSpec := {
  args : list string;
  varargs : option string;
  keywords : option string;
  defaults : list pyval;
}.

(** A Python function object: its signature and the attributes the entry
    point reads or writes.  An attribute that is not set is [None] here;
    an attribute set to Python's None is [Some PyNone]. *)
Record function := {
  argspec : ArgSpec;
  timeout_s : option pyval;
  run_if : option pyval;
  plugs : option (gmap string plug_type);
  parameters : option pyval;
}.

Definition set_timeout_s (v : pyval) (f : function) : function :=
  {| argspec := argspec f; timeout_s := Some v; run_if := run_if f;
     plugs := plugs f; parameters := parameters f |}.

Definition set_run_if (v : pyval) (f : function) : function :=
  {| argspec := argspec f; timeout_s := timeout_s f; run_if := Some v;
     plugs := plugs f; parameters := parameters f |}.

End Phase.

(** The function objects of the program, by identity.  A phase is a
    reference into this store, so that setting an attribute through one
    reference is seen through every other. *)
Abbreviation store := (loc -> Phase.function).

Definition setattr (l : loc) (upd : Phase.function -> Phase.function)
    (σ : store) : store :=
  <[l := upd (σ l)]> σ.

(** ** The TestPhase decorator *)

(** [TestPhase(timeout_s, run_if)(phase_func)], that is [Wrap(phase_func)]. *)
Definition TestPhase (timeout_s run_if : pyval) (phase_func : loc)
    (σ : store) : result loc * store :=
  if decide (length (Phase.args (Phase.argspec (σ phase_func))) < 1)%nat then
    (Raise (InvalidTestPhaseError phase_func "Not enough args"), σ)
  else
    let σ1 := if is_not_None timeout_s
              then setattr phase_func (Phase.set_timeout_s timeout_s) σ
              else σ in
    let σ2 := if is_not_None run_if
              then setattr phase_func (Phase.set_run_if run_if) σ1
              else σ1 in
    (Return phase_func, σ2).

(** The number of arguments a call must pass at least: the named positional
    parameters without a default.  This follows the specification's words
    (minimum required parameter count); the decorator does not compute it. *)
Definition min_required_args (f : Phase.function) : nat :=
  length (Phase.args (Phase.argspec f)) - length (Phase.defaults (Phase.argspec f)).

(** ** The Test class *)

Module Test.

(** What [__init__] reads from the frame of its caller:
    [os.path.basename(frame_record[1])],
    [inspect.getdoc(inspect.getmodule(frame_record[0]))] and
    [inspect.getsource(frame_record[0])]. *)
Record CallerFrame := {
  frame_filename : string;
  frame_docstring : option string;
  frame_code : string;
}.

Record t := {
  phases : list loc;
  output_callbacks : list loc;
  filename : string;
  docstring : option string;
  code : string;
  parameters : pyval;
}.

(** [Test(phase, ...)], the phases arriving as a tuple.  [caller] is the
    outcome of inspecting the calling frame and [Union] is
    [parameters.TestParameterList.Union]; both live outside this file. *)
Definition __init__ (caller : string + CallerFrame)
    (Union : list pyval -> string + pyval)
    (σ : store) (phases : list loc) : result t :=
  frame ← external caller;
  params ← external (Union (omap (fun phase => Phase.parameters (σ phase)) phases));
  Return {| phases := phases;
            output_callbacks := [];
            filename := frame_filename frame;
            docstring := frame_docstring frame;
            code := frame_code frame;
            parameters := params |}.

(** [itertools.chain.from_iterable(phase.plugs.iteritems()
      for phase in self.phases if hasattr(phase, 'plugs'))] *)
Definition plug_items (σ : store) (phases : list loc)
    : list (string * plug_type) :=
  mjoin ((fun m : gmap string plug_type => map_to_list m)
           <$> omap (fun phase => Phase.plugs (σ phase)) phases).

(** The body of the [for] loop of [plug_type_map], over the items left to
    visit and the dict built so far. *)
Fixpoint plug_loop (items : list (string * plug_type))
    (plug_type_map : gmap string plug_type)
    : result (gmap string plug_type) :=
  match items with
  | [] => Return plug_type_map
  | (plug, plug_type) :: items' =>
      match plug_type_map !! plug with
      | Some present =>
          if decide (plug_type ≠ present)
          then Raise (DuplicatePlugError
                        ("Duplicate plug with different type: " +:+ plug))
          else plug_loop items' (<[plug := plug_type]> plug_type_map)
      | None => plug_loop items' (<[plug := plug_type]> plug_type_map)
      end
  end.

(** The [plug_type_map] property. *)
Definition plug_type_map (σ : store) (self : t)
    : result (gmap string plug_type) :=
  plug_loop (plug_items σ (phases self)) ∅.

(** [AddOutputCallback]: [self.output_callbacks.append(callback)]. *)
Definition AddOutputCallback (self : t) (callback : loc) : t :=
  {| phases := phases self;
     output_callbacks := output_callbacks self ++ [callback];
     filename := filename self;
     docstring := docstring self;
     code := code self;
     parameters := parameters self |}.

(** *** Output callbacks *)

Section Callbacks.

(** Everything a callback can touch: files, logs, devices. *)
Context {W : Type}.

(** [call cb arg w]: what calling the callable [cb] on [arg] does, in
    the world [w]: it returns or raises, and leaves a new world.  A
    callback is handed the record only; it is taken to hold no reference
    to the Test, so the list of callbacks does not change while the loop
    of [OutputTestRecord] runs. *)
Variable call : loc -> pyval -> W -> result pyval * W.

(** The world, with the log of the callables invoked so far (the log is
    kept by the model to state which callbacks ran, in which order). *)
Record world := {
  outside : W;
  invoked : list loc;
}.

Definition invoke (cb : loc) (arg : pyval) (w : world)
    : result pyval * world :=
  let '(r, o) := call cb arg (outside w) in
  (r, {| outside := o; invoked := invoked w ++ [cb] |}).

(** [for output_cb in callbacks: output_cb(test_record)] *)
Fixpoint for_output_cb (callbacks : list loc) (test_record : pyval)
    (w : world) : result unit * world :=
  match callbacks with
  | [] => (Return (), w)
  | output_cb :: callbacks' =>
      match invoke output_cb test_record w with
      | (Return _, w') => for_output_cb callbacks' test_record w'
      | (Raise e, w') => (Raise e, w')
      end
  end.

Definition OutputTestRecord (self : t) (test_record : pyval) (w : world)
    : result unit * world :=
  for_output_cb (output_callbacks self) test_record w.

(** *** The Test object over the life of the process

    [Execute] passes [self] to the executor starter and to the HTTP
    handler and assigns no attribute of it; the cells then call
    [OutputTestRecord] on that same object whenever a run finishes.
    [executing] is kept by the model only: the object has no such
    attribute. *)
Record process := {
  self : t;
  executing : bool;
  env : world;
}.

Inductive event :=
| CallAddOutputCallback (callback : loc)
| CallExecute
| CellFinishesRun (test_record : pyval).

Definition step (p : process) (ev : event) : process :=
  match ev with
  | CallAddOutputCallback callback =>
      {| self := AddOutputCallback (self p) callback;
         executing := executing p; env := env p |}
  | CallExecute =>
      {| self := self p; executing := true; env := env p |}
  | CellFinishesRun test_record =>
      {| self := self p; executing := executing p;
         env := (OutputTestRecord (self p) test_record (env p)).2 |}
  end.

Definition run (evs : list event) (p : process) : process :=
  foldl step p evs.

(** The callbacks that the events of [evs] register, in order. *)
Definition registered (evs : list event) : list loc :=
  omap (fun ev => match ev with
                  | CallAddOutputCallback callback => Some callback
                  | _ => None
                  end) evs.

End Callbacks.

End Test.

(** ** OutputToJson *)

#[local] Set Warnings "-register-all".

(** Python values as [_ConvertToDict] tells them apart: a namedtuple (the
    objects with an [_asdict] method) with its type name and its fields in
    order, a dict with its items, a list, a tuple, and anything else.  The
    values are trees: no object is reached along two paths. *)
Inductive pyobj :=
| PyAtom (v : pyval)
| PyNamedTuple (typename : string) (fields : list (string * pyobj))
| PyDict (items : list (pyobj * pyobj))
| PyList (elems : list pyobj)
| PyTuple (elems : list pyobj).

Module OutputToJson.

(** [obj._asdict()]: a new ordered dict from the field names, in order, to
    the field values. *)
Definition _asdict (fields : list (string * pyobj)) : list (pyobj * pyobj) :=
  map (fun field => (PyAtom (PyStr field.1), field.2)) fields.

(** [_ConvertToDict(obj)], the value returned.  A namedtuple is first
    replaced by its [_asdict()] and then treated as the dict it has become;
    the two steps are one case here (see [_ConvertToDict_namedtuple]). *)
Fixpoint _ConvertToDict (obj : pyobj) : pyobj :=
  match obj with
  | PyNamedTuple _ fields =>
      PyDict (map (fun '(key, value) =>
                     (PyAtom (PyStr key), _ConvertToDict value)) fields)
  | PyDict items =>
      PyDict (map (fun '(key, value) => (key, _ConvertToDict value)) items)
  | PyList elems => PyList (map _ConvertToDict elems)
  | PyTuple elems => PyTuple (map _ConvertToDict elems)
  | PyAtom v => PyAtom v
  end.

(** [_ConvertToDict(obj)], what the call leaves of the object it was
    given.  A dict is updated in place ([obj[key] = ...]), so it ends as
    the value returned; a namedtuple, a list and a tuple are not assigned
    to (the dict of [_asdict()] and the converted list or tuple are new
    objects), but the values they hold have gone through the call. *)
Fixpoint _ConvertToDict_argument (obj : pyobj) : pyobj :=
  match obj with
  | PyNamedTuple typename fields =>
      PyNamedTuple typename
        (map (fun '(key, value) => (key, _ConvertToDict_argument value)) fields)
  | PyDict items =>
      PyDict (map (fun '(key, value) => (key, _ConvertToDict value)) items)
  | PyList elems => PyList (map _ConvertToDict_argument elems)
  | PyTuple elems => PyTuple (map _ConvertToDict_argument elems)
  | PyAtom v => PyAtom v
  end.

End OutputToJson.

(** ** Notions used in the statements *)

(** Some plug name is required by two phases of the list with two distinct
    types. *)
Definition plug_conflict (σ : store) (phases : list loc) : Prop :=
  ∃ p1 p2 m1 m2 name ty1 ty2,
    p1 ∈ phases ∧ p2 ∈ phases ∧
    Phase.plugs (σ p1) = Some m1 ∧ Phase.plugs (σ p2) = Some m2 ∧
    m1 !! name = Some ty1 ∧ m2 !! name = Some ty2 ∧ ty1 ≠ ty2.

(** [m] is the union of the plug mappings of the phases: it maps a name to
    a type exactly when some phase of the list does. *)
Definition is_plug_union (σ : store) (phases : list loc)
    (m : gmap string plug_type) : Prop :=
  ∀ name ty,
    m !! name = Some ty ↔
    ∃ p pm, p ∈ phases ∧ Phase.plugs (σ p) = Some pm ∧ pm !! name = Some ty.

Definition raises_DuplicatePlugError {A} (r : result A) : Prop :=
  ∃ msg, r = Raise (DuplicatePlugError msg).

Definition raises_InvalidTestPhaseError {A} (r : result A) : Prop :=
  ∃ f msg, r = Raise (InvalidTestPhaseError f msg).

(** A namedtuple is held somewhere in [obj]: it is one, or one is among the
    values of a dict, the elements of a list or of a tuple, at any depth.
    (Dict keys are not looked at.) *)
Fixpoint has_namedtuple (obj : pyobj) : bool :=
  match obj with
  | PyAtom _ => false
  | PyNamedTuple _ _ => true
  | PyDict items => existsb (fun '(_, value) => has_namedtuple value) items
  | PyList elems => existsb has_namedtuple elems
  | PyTuple elems => existsb has_namedtuple elems
  end.

(** The plain values held in [obj], from left to right: the field values
    of namedtuples, the values of dicts, the elements of lists and tuples,
    down to the values that are none of these. *)
Fixpoint held_values (obj : pyobj) : list pyval :=
  match obj with
  | PyAtom v => [v]
  | PyNamedTuple _ fields => flat_map (fun '(_, value) => held_values value) fields
  | PyDict items => flat_map (fun '(_, value) => held_values value) items
  | PyList elems => flat_map held_values elems
  | PyTuple elems => flat_map held_values elems
  end.

(** The callbacks of the list, called in turn on the record from the
    world [o], all return, and leave the world [o']. *)
Inductive returns_in_turn {W} (call : loc → pyval → W → result pyval * W)
    (test_record : pyval) : list loc → W → W → Prop :=
| returns_in_turn_nil o :
    returns_in_turn call test_record [] o o
| returns_in_turn_cons cb callbacks o v o1 o' :
    call cb test_record o = (Return v, o1) →
    returns_in_turn call test_record callbacks o1 o' →
    returns_in_turn call test_record (cb :: callbacks) o o'.

(** What kind of value [isinstance] and [hasattr] find. *)
Inductive kind := KAtom | KNamedTuple | KDict | KList | KTuple.

Definition kind_of (obj : pyobj) : kind :=
  match obj with
  | PyAtom _ => KAtom
  | PyNamedTuple _ _ => KNamedTuple
  | PyDict _ => KDict
  | PyList _ => KList
  | PyTuple _ => KTuple
  end.

(** The keys under which a value holds its values, in order: the keys of a
    dict, the field names of a namedtuple (as the strings they are). *)
Definition keys_of (obj : pyobj) : list pyobj :=
  match obj with
  | PyDict items => map fst items
  | PyNamedTuple _ fields => map (fun field => PyAtom (PyStr field.1)) fields
  | _ => []
  end.

Definition pyval_eqb (a b : pyval) : bool :=
  match a, b with
  | PyNone, PyNone => true
  | PyInt x, PyInt y => Z.eqb x y
  | PyStr s, PyStr t => String.eqb s t
  | PyRef l, PyRef l' => Pos.eqb l l'
  | _, _ => false
  end.

(** One step into a value: [obj[k]] on a dict and [obj.k] on a namedtuple
    (for a key that is a plain value), [obj[i]] on a list or a tuple. *)
Inductive access :=
| AtKey (k : pyval)
| AtIndex (i : nat).

Definition find_value (k : pyval) (items : list (pyobj * pyobj))
    : option pyobj :=
  snd <$> find (fun item => match item.1 with
                            | PyAtom k' => pyval_eqb k' k
                            | _ => false
                            end) items.

Definition find_field (k : pyval) (fields : list (string * pyobj))
    : option pyobj :=
  snd <$> find (fun field => pyval_eqb (PyStr field.1) k) fields.

Definition get_step (a : access) (obj : pyobj) : option pyobj :=
  match a, obj with
  | AtKey k, PyDict items => find_value k items
  | AtKey k, PyNamedTuple _ fields => find_field k fields
  | AtIndex i, PyList elems => elems !! i
  | AtIndex i, PyTuple elems => elems !! i
  | _, _ => None
  end.

(** The value found along a path of steps, if every step finds one. *)
Fixpoint get (path : list access) (obj : pyobj) : option pyobj :=
  match path with
  | [] => Some obj
  | a :: path' => get_step a obj ≫= get path'
  end.

(** The option that wins when a function is decorated twice: the later one
    unless it is None. *)
Definition later_option (earlier later : pyval) : pyval :=
  if is_not_None later then later else earlier.

(** ** Objects used in the examples *)

Definition one_arg (names : list string) (dflt : list pyval)
    (pl : option (gmap string plug_type)) : Phase.function :=
  {| Phase.argspec := {| Phase.args := names; Phase.varargs := None;
                         Phase.keywords := None; Phase.defaults := dflt |};
     Phase.timeout_s := None; Phase.run_if := None;
     Phase.plugs := pl; Phase.parameters := None |}.

(** A plain phase [def phase(test)] at every location but these:
    1: [def f(test)] with plugs {example: class 10};
    2: [def g(test)] with plugs {example: class 20};
    3: [def h(test=None)];
    4: [def k()];
    5: [def q(test)] with plugs {example: class 10, scope: class 30}. *)
Definition example_store : store :=
  <[1%positive := one_arg ["test"] [] (Some {["example" := 10%positive]})]>
  (<[2%positive := one_arg ["test"] [] (Some {["example" := 20%positive]})]>
  (<[3%positive := one_arg ["test"] [PyNone] None]>
  (<[4%positive := one_arg [] [] None]>
  (<[5%positive := one_arg ["test"] []
       (Some (<["scope" := 30%positive]> {["example" := 10%positive]}))]>
  (fun _ => one_arg ["test"] [] None))))).

Definition example_caller : string + Test.CallerFrame :=
  inr {| Test.frame_filename := "station.py";
         Test.frame_docstring := None;
         Test.frame_code := "Test(f, g).Execute()" |}.

(** A union that keeps the first parameter list, if any. *)
Definition example_Union (ps : list pyval) : string + pyval :=
  inr (default PyNone (head ps)).

(** Callback 1 raises; every other callback returns None.  The world counts
    the calls that returned. *)
Definition example_call (cb : loc) (arg : pyval) (w : nat)
    : result pyval * nat :=
  if decide (cb = 1%positive)
  then (Raise (ExternalError "disk full"), w)
  else (Return PyNone, S w).

Definition example_test (phases : list loc) : Test.t :=
  {| Test.phases := phases; Test.output_callbacks := [];
     Test.filename := "station.py"; Test.docstring := None;
     Test.code := "Test(f, g).Execute()"; Test.parameters := PyNone |}.

Definition example_world : Test.world :=
  {| Test.outside := 0%nat; Test.invoked := [] |}.

Definition example_process (callbacks : list loc) : Test.process :=
  {| Test.self :=
       {| Test.phases := []; Test.output_callbacks := callbacks;
          Test.filename := "station.py"; Test.docstring := None;
          Test.code := "Test(f, g).Execute()"; Test.parameters := PyNone |};
     Test.executing := false;
     Test.env := example_world |}.

(** A record [Rec(dut='x1', phases=[Phase(name='p', ok=1)],
    limits={'v': Limit(hi=5)})]. *)
Definition example_record : pyobj :=
  PyNamedTuple "Rec"
    [("dut", PyAtom (PyStr "x1"));
     ("phases", PyList [PyNamedTuple "Phase"
                          [("name", PyAtom (PyStr "p")); ("ok", PyAtom (PyInt 1))]]);
     ("limits", PyDict [(PyAtom (PyStr "v"),
                         PyNamedTuple "Limit" [("hi", PyAtom (PyInt 5))])])].

(** [{'dut': 'x1', 'codes': [1, (2, 3)]}] *)
Definition example_plain : pyobj :=
  PyDict [(PyAtom (PyStr "dut"), PyAtom (PyStr "x1"));
          (PyAtom (PyStr "codes"),
           PyList [PyAtom (PyInt 1); PyTuple [PyAtom (PyInt 2); PyAtom (PyInt 3)]])].

(** ** The loop of plug_type_map *)

Section PlugLoop.

Implicit Types (items : list (string * plug_type)) (m : gmap string plug_type).

(** A loop that returns kept every entry it started with, entered every
    item it visited, and entered nothing else. *)
Lemma plug_loop_Return items m m' :
  Test.plug_loop items m = Return m' →
  (∀ name ty, m !! name = Some ty → m' !! name = Some ty) ∧
  (∀ name ty, (name, ty) ∈ items → m' !! name = Some ty) ∧
  (∀ name ty, m' !! name = Some ty →
              m !! name = Some ty ∨ (name, ty) ∈ items).
Proof.
  revert m. induction items as [|[plug pt] items IH]; intros m Hloop.
  - injection Hloop as <-. split_and!; [done | | by left].
    intros name ty Hin. by apply elem_of_nil in Hin.
  - cbn [Test.plug_loop] in Hloop.
    assert (Hnext : Test.plug_loop items (<[plug := pt]> m) = Return m' ∧
                    (∀ ty, m !! plug = Some ty → ty = pt)).
    { destruct (m !! plug) as [present|] eqn:Hplug; [|done].
      destruct (decide (pt ≠ present)) as [|Heq%dec_stable]; [done|].
      split; [done|]. intros ty [= <-]. done. }
    destruct Hnext as [Hnext Hsame].
    destruct (IH _ Hnext) as (Hkeep & Hitems & Honly).
    split_and!.
    + intros name ty Hm. apply Hkeep.
      destruct (decide (plug = name)) as [<-|Hne].
      * rewrite (Hsame _ Hm). apply lookup_insert_eq.
      * by rewrite lookup_insert_ne.
    + intros name ty [[= -> ->]|Hin]%elem_of_cons.
      * apply Hkeep, lookup_insert_eq.
      * by apply Hitems.
    + intros name ty Hm'.
      destruct (Honly _ _ Hm') as [Hins|Hin]; [|right; by right].
      destruct (decide (plug = name)) as [<-|Hne].
      * rewrite lookup_insert_eq in Hins. injection Hins as ->.
        right. by left.
      * rewrite lookup_insert_ne in Hins by done. by left.
Qed.

(** A loop that raises met an item whose name it had already entered, or
    started with, under another type; the exception names that plug. *)
Lemma plug_loop_Raise items m e :
  Test.plug_loop items m = Raise e →
  ∃ name ty ty',
    e = DuplicatePlugError ("Duplicate plug with different type: " +:+ name) ∧
    (name, ty) ∈ items ∧
    (m !! name = Some ty' ∨ (name, ty') ∈ items) ∧ ty ≠ ty'.
Proof.
  revert m. induction items as [|[plug pt] items IH]; intros m Hloop;
    [done|].
  cbn [Test.plug_loop] in Hloop.
  assert (Hcases :
    (∃ present, m !! plug = Some present ∧ pt ≠ present ∧
       e = DuplicatePlugError ("Duplicate plug with different type: " +:+ plug)) ∨
    Test.plug_loop items (<[plug := pt]> m) = Raise e).
  { destruct (m !! plug) as [present|] eqn:Hplug; [|by right].
    destruct (decide (pt ≠ present)); [|by right].
    left. exists present. by injection Hloop as <-. }
  destruct Hcases as [(present & Hm & Hne & ->)|Hnext].
  - exists plug, pt, present. split_and!; [done | by left | by left | done].
  - destruct (IH _ Hnext) as (name & ty & ty' & -> & Hin & Hother & Hne).
    exists name, ty, ty'. split_and!; [done | by right | | done].
    destruct Hother as [Hins|Hin']; [|right; by right].
    destruct (decide (plug = name)) as [<-|Hne'].
    + rewrite lookup_insert_eq in Hins. injection Hins as ->.
      right. by left.
    + rewrite lookup_insert_ne in Hins by done. by left.
Qed.

(** The items the loop visits are the entries of the phases' plug dicts. *)
Lemma elem_of_plug_items σ phases name ty :
  (name, ty) ∈ Test.plug_items σ phases ↔
  ∃ p pm, p ∈ phases ∧ Phase.plugs (σ p) = Some pm ∧ pm !! name = Some ty.
Proof.
  unfold Test.plug_items. rewrite list_elem_of_join. split.
  - intros (l & Hin & (pm & -> & (p & Hp & Hpm)%list_elem_of_omap)%list_elem_of_fmap).
    exists p, pm. by apply elem_of_map_to_list in Hin.
  - intros (p & pm & Hp & Hpm & Hlook). exists (map_to_list pm). split.
    + by apply elem_of_map_to_list.
    + apply list_elem_of_fmap. exists pm. split; [done|].
      apply list_elem_of_omap. by exists p.
Qed.

Lemma plug_conflict_items σ phases :
  plug_conflict σ phases ↔
  ∃ name ty ty', (name, ty) ∈ Test.plug_items σ phases ∧
                 (name, ty') ∈ Test.plug_items σ phases ∧ ty ≠ ty'.
Proof.
  split.
  - intros (p1 & p2 & m1 & m2 & name & ty1 & ty2 & ? & ? & ? & ? & ? & ? & ?).
    exists name, ty1, ty2. rewrite !elem_of_plug_items. naive_solver.
  - intros (name & ty & ty' & (p1 & m1 & ? & ? & ?)%elem_of_plug_items
              & (p2 & m2 & ? & ? & ?)%elem_of_plug_items & ?).
    by exists p1, p2, m1, m2, name, ty, ty'.
Qed.

(** What the property does, told from the phases alone. *)
Lemma plug_type_map_conflict σ self :
  plug_conflict σ (Test.phases self) →
  raises_DuplicatePlugError (Test.plug_type_map σ self).
Proof.
  intros (name & ty & ty' & Hin & Hin' & Hne)%plug_conflict_items.
  unfold Test.plug_type_map.
  destruct (Test.plug_loop _ ∅) as [m|e] eqn:Hloop.
  - apply plug_loop_Return in Hloop as (_ & Hitems & _).
    apply Hitems in Hin, Hin'. congruence.
  - apply plug_loop_Raise in Hloop as (n & _ & _ & -> & _). by eexists.
Qed.

Lemma plug_type_map_Raise σ self e :
  Test.plug_type_map σ self = Raise e →
  plug_conflict σ (Test.phases self) ∧ raises_DuplicatePlugError (Raise e (A := gmap string plug_type)).
Proof.
  intros (name & ty & ty' & -> & Hin & [Hempty|Hin'] & Hne)%plug_loop_Raise.
  { by rewrite lookup_empty in Hempty. }
  split; [|by eexists]. apply plug_conflict_items. by exists name, ty, ty'.
Qed.

Lemma plug_type_map_Return σ self m :
  Test.plug_type_map σ self = Return m →
  ¬ plug_conflict σ (Test.phases self) ∧ is_plug_union σ (Test.phases self) m.
Proof.
  intros Hloop. split.
  - intros [msg Hraise]%(plug_type_map_conflict σ self). congruence.
  - apply plug_loop_Return in Hloop as (_ & Hitems & Honly).
    intros name ty. rewrite <- elem_of_plug_items. split; [|by apply Hitems].
    intros [Hempty|Hin]%Honly; [|done]. by rewrite lookup_empty in Hempty.
Qed.

Lemma plug_conflict_Permutation σ phases phases' :
  phases ≡ₚ phases' → plug_conflict σ phases → plug_conflict σ phases'.
Proof.
  intros Hperm (p1 & p2 & m1 & m2 & name & ty1 & ty2 & Hp1 & Hp2 & Hrest).
  exists p1, p2, m1, m2, name, ty1, ty2. by rewrite <- Hperm.
Qed.

End PlugLoop.

(** ** The loop of OutputTestRecord *)

Section CallbackLoop.

Context {W : Type} (call : loc → pyval → W → result pyval * W).

Lemma run_snoc evs ev (p : Test.process) :
  Test.run call (evs ++ [ev]) p = Test.step call (Test.run call evs p) ev.
Proof. unfold Test.run. by rewrite foldl_app. Qed.

End CallbackLoop.

(** ** The decorator on the store *)

Section Decorator.

Implicit Types (σ : store) (f : loc) (timeout_s run_if : pyval).

Lemma TestPhase_accepts σ f timeout_s run_if :
  (1 ≤ length (Phase.args (Phase.argspec (σ f))))%nat →
  ∃ σ', TestPhase timeout_s run_if f σ = (Return f, σ') ∧
    (∀ g, g ≠ f → σ' g = σ g) ∧
    σ' f = {| Phase.argspec := Phase.argspec (σ f);
              Phase.timeout_s := if is_not_None timeout_s then Some timeout_s
                                 else Phase.timeout_s (σ f);
              Phase.run_if := if is_not_None run_if then Some run_if
                              else Phase.run_if (σ f);
              Phase.plugs := Phase.plugs (σ f);
              Phase.parameters := Phase.parameters (σ f) |}.
Proof.
  intros Hargs. unfold TestPhase.
  destruct (decide (_ < 1)%nat) as [Hlt|_]; [lia|].
  eexists. split; [done|]. unfold setattr. split.
  - intros g Hne.
    destruct (is_not_None timeout_s), (is_not_None run_if);
      by rewrite ?fn_lookup_insert_ne.
  - destruct (is_not_None timeout_s), (is_not_None run_if);
      rewrite ?fn_lookup_insert; [done | done | done |].
    by destruct (σ f).
Qed.

Lemma TestPhase_rejects σ f timeout_s run_if :
  length (Phase.args (Phase.argspec (σ f))) = 0%nat →
  TestPhase timeout_s run_if f σ =
    (Raise (InvalidTestPhaseError f "Not enough args"), σ).
Proof.
  intros Hargs. unfold TestPhase.
  destruct (decide (_ < 1)%nat) as [_|Hge]; [done|lia].
Qed.

End Decorator.

(** ** More on the plug map, the decorator and the callback loop *)

Section MoreHelpers.

Implicit Types (σ : store) (m : gmap string plug_type).

(** The union of the plug dicts depends on the set of phases only. *)
Lemma is_plug_union_subseteq σ phases phases' m m' :
  phases ⊆ phases' →
  is_plug_union σ phases m → is_plug_union σ phases' m' → m ⊆ m'.
Proof.
  intros Hsub Hm Hm'. apply map_subseteq_spec. intros name ty Hlook.
  apply Hm in Hlook as (p & pm & Hp & Hpm & Hty).
  apply Hm'. exists p, pm. split_and!; [by apply Hsub | done | done].
Qed.

Lemma plug_conflict_subseteq σ phases phases' :
  phases ⊆ phases' → plug_conflict σ phases → plug_conflict σ phases'.
Proof.
  intros Hsub (p1 & p2 & m1 & m2 & name & ty1 & ty2 & Hp1 & Hp2 & Hrest).
  exists p1, p2, m1, m2, name, ty1, ty2.
  split; [by apply Hsub|]. split; [by apply Hsub|]. exact Hrest.
Qed.

(** Without a conflict the property returns. *)
Lemma plug_type_map_free σ self :
  ¬ plug_conflict σ (Test.phases self) →
  ∃ m, Test.plug_type_map σ self = Return m ∧
       is_plug_union σ (Test.phases self) m.
Proof.
  intros Hfree. destruct (Test.plug_type_map σ self) as [m|e] eqn:Hmap.
  - exists m. split; [done|]. by apply plug_type_map_Return in Hmap as [_ ?].
  - by apply plug_type_map_Raise in Hmap as [? _].
Qed.

(** What the decorator leaves alone, on every object, accepted or not. *)
Lemma TestPhase_frame timeout_s run_if f σ g :
  Phase.argspec ((TestPhase timeout_s run_if f σ).2 g) = Phase.argspec (σ g) ∧
  Phase.plugs ((TestPhase timeout_s run_if f σ).2 g) = Phase.plugs (σ g) ∧
  Phase.parameters ((TestPhase timeout_s run_if f σ).2 g)
    = Phase.parameters (σ g).
Proof.
  destruct (decide (length (Phase.args (Phase.argspec (σ f))) = 0%nat))
    as [Hnone|Hsome].
  - by rewrite (TestPhase_rejects _ _ _ _ Hnone).
  - destruct (TestPhase_accepts σ f timeout_s run_if) as (σ' & -> & Hothers & Hf);
      [lia|]. cbn [snd].
    destruct (decide (g = f)) as [->|Hne].
    + by rewrite Hf.
    + by rewrite (Hothers _ Hne).
Qed.

Context {W : Type} (call : loc → pyval → W → result pyval * W).

(** The loop over two lists in a row is the loop over the first, then, if
    it returned, the loop over the second. *)
Lemma for_output_cb_app callbacks callbacks' test_record (w : Test.world) :
  Test.for_output_cb call (callbacks ++ callbacks') test_record w =
  match Test.for_output_cb call callbacks test_record w with
  | (Return _, w') => Test.for_output_cb call callbacks' test_record w'
  | (Raise e, w') => (Raise e, w')
  end.
Proof.
  revert w. induction callbacks as [|cb callbacks IH]; intros w; [done|].
  cbn [app Test.for_output_cb].
  destruct (Test.invoke call cb test_record w) as [[v|e] w']; [apply IH|done].
Qed.

(** Callbacks that all return are all invoked, and the loop returns. *)
Lemma for_output_cb_returns callbacks test_record (w : Test.world) o' :
  returns_in_turn call test_record callbacks (Test.outside w) o' →
  Test.for_output_cb call callbacks test_record w
  = (Return (), {| Test.outside := o';
                   Test.invoked := Test.invoked w ++ callbacks |}).
Proof.
  revert w. induction callbacks as [|cb callbacks IH]; intros w Hturn.
  - inversion Hturn; subst. rewrite app_nil_r. by destruct w.
  - inversion Hturn as [|? ? ? v o1 ? Hcall Hrest]; subst.
    cbn [Test.for_output_cb]. unfold Test.invoke. rewrite Hcall.
    rewrite (IH {| Test.outside := o1;
                   Test.invoked := Test.invoked w ++ [cb] |} Hrest).
    cbn [Test.invoked Test.outside]. by rewrite <- app_assoc.
Qed.

(** From any world, either the callbacks all return in turn, or there is a
    first one that raises after those before it have returned. *)
Lemma returns_in_turn_or_raises callbacks test_record o :
  (∃ o', returns_in_turn call test_record callbacks o o') ∨
  (∃ before cb later o1 e o',
     callbacks = before ++ cb :: later ∧
     returns_in_turn call test_record before o o1 ∧
     call cb test_record o1 = (Raise e, o')).
Proof.
  revert o. induction callbacks as [|cb callbacks IH]; intros o.
  - left. exists o. constructor.
  - destruct (call cb test_record o) as [[v|e] o1] eqn:Hcall.
    + destruct (IH o1) as [[o' Hturn]
                          |(before & cb' & later & o2 & e & o' & -> & Hturn & Hraise)].
      * left. exists o'. by econstructor.
      * right. exists (cb :: before), cb', later, o2, e, o'.
        split_and!; [done | by econstructor | done].
    + right. exists [], cb, callbacks, o, e, o1.
      split_and!; [done | constructor | done].
Qed.

End MoreHelpers.

(** ** Induction on Python values *)

Section PyobjInduction.

Variable P : pyobj → Prop.
Hypothesis Hatom : ∀ v, P (PyAtom v).
Hypothesis Hnamedtuple : ∀ typename fields,
  Forall (fun field => P field.2) fields → P (PyNamedTuple typename fields).
Hypothesis Hdict : ∀ items,
  Forall (fun item => P item.2) items → P (PyDict items).
Hypothesis Hlist : ∀ elems, Forall P elems → P (PyList elems).
Hypothesis Htuple : ∀ elems, Forall P elems → P (PyTuple elems).

(** Induction over the values held: the field values, the dict values, the
    elements.  Dict keys are left out, as the conversion leaves them out. *)
Lemma pyobj_values_ind : ∀ obj, P obj.
Proof.
  exact (fix IH (obj : pyobj) : P obj :=
    match obj with
    | PyAtom v => Hatom v
    | PyNamedTuple typename fields =>
        Hnamedtuple typename fields
          ((fix go (l : list (string * pyobj)) : Forall (fun field => P field.2) l :=
              match l with
              | [] => Forall_nil _
              | (key, value) :: l' =>
                  Forall_cons (fun field => P field.2) (key, value) l'
                    (IH value) (go l')
              end) fields)
    | PyDict items =>
        Hdict items
          ((fix go (l : list (pyobj * pyobj)) : Forall (fun item => P item.2) l :=
              match l with
              | [] => Forall_nil _
              | (key, value) :: l' =>
                  Forall_cons (fun item => P item.2) (key, value) l'
                    (IH value) (go l')
              end) items)
    | PyList elems =>
        Hlist elems
          ((fix go (l : list pyobj) : Forall P l :=
              match l with
              | [] => Forall_nil _
              | x :: l' => Forall_cons P x l' (IH x) (go l')
              end) elems)
    | PyTuple elems =>
        Htuple elems
          ((fix go (l : list pyobj) : Forall P l :=
              match l with
              | [] => Forall_nil _
              | x :: l' => Forall_cons P x l' (IH x) (go l')
              end) elems)
    end).
Qed.

End PyobjInduction.

Section ConvertToDict.

(** The source's two steps on a namedtuple, [_asdict()] and then the dict
    branch, give what the single case of the embedding gives. *)
Lemma _ConvertToDict_namedtuple typename fields :
  OutputToJson._ConvertToDict (PyNamedTuple typename fields) =
  OutputToJson._ConvertToDict (PyDict (OutputToJson._asdict fields)).
Proof.
  cbn [OutputToJson._ConvertToDict]. unfold OutputToJson._asdict.
  f_equal. rewrite map_map. apply map_ext. by intros [key value].
Qed.

End ConvertToDict.

(** ** Properties of plug_type_map *)

(** Claim C1.  When some plug name is required by two phases of the Test
    with two distinct plug types, computing [plug_type_map] raises
    [DuplicatePlugError]; when every name resolves to one and the same type
    object wherever it is required, it does not raise that error. *)
Theorem plug_type_map_raises_on_conflict σ self :
  (plug_conflict σ (Test.phases self) →
     raises_DuplicatePlugError (Test.plug_type_map σ self)) ∧
  (¬ plug_conflict σ (Test.phases self) →
     ¬ raises_DuplicatePlugError (Test.plug_type_map σ self)).
Proof.
  split.
  - apply plug_type_map_conflict.
  - intros Hfree [msg Hraise]. by apply plug_type_map_Raise in Hraise as [? _].
Qed.

Lemma plug_type_map_raises_on_conflict_witness :
  raises_DuplicatePlugError
    (Test.plug_type_map example_store (example_test [1; 2]%positive)) ∧
  ¬ raises_DuplicatePlugError
    (Test.plug_type_map example_store (example_test [1; 5; 7]%positive)).
Proof.
  split.
  - apply (proj1 (plug_type_map_raises_on_conflict example_store
                    (example_test [1; 2]%positive))).
    exists 1%positive, 2%positive, {["example" := 10%positive]},
      {["example" := 20%positive]}, "example", 10%positive, 20%positive.
    split_and!; [set_solver | set_solver | reflexivity | reflexivity
                | reflexivity | reflexivity | discriminate].
  - apply (proj2 (plug_type_map_raises_on_conflict example_store
                    (example_test [1; 5; 7]%positive))).
    destruct (Test.plug_type_map example_store (example_test [1; 5; 7]%positive))
      as [m|e] eqn:Hmap.
    + by apply plug_type_map_Return in Hmap as [? _].
    + vm_compute in Hmap. discriminate.
Defined.

(** Claim C2.  When the plug requirements of the phases are consistent (no
    name is mapped to two distinct types), computing [plug_type_map] returns,
    and the dict it returns is the union of the phases' plug dicts: it maps
    a name to a type exactly when some phase does; a phase without a [plugs]
    attribute contributes nothing. *)
Theorem plug_type_map_returns_union σ self :
  ¬ plug_conflict σ (Test.phases self) →
  ∃ m, Test.plug_type_map σ self = Return m ∧
       is_plug_union σ (Test.phases self) m.
Proof.
  intros Hfree. destruct (Test.plug_type_map σ self) as [m|e] eqn:Hmap.
  - exists m. split; [done|]. by apply plug_type_map_Return in Hmap as [_ ?].
  - by apply plug_type_map_Raise in Hmap as [? _].
Qed.

Lemma plug_type_map_returns_union_witness :
  ∃ m, Test.plug_type_map example_store (example_test [1; 5; 7]%positive)
         = Return m ∧
       is_plug_union example_store [1; 5; 7]%positive m.
Proof.
  apply (plug_type_map_returns_union example_store
           (example_test [1; 5; 7]%positive)).
  destruct (Test.plug_type_map example_store (example_test [1; 5; 7]%positive))
    as [m|e] eqn:Hmap.
  - by apply plug_type_map_Return in Hmap as [? _].
  - vm_compute in Hmap. discriminate.
Defined.

(** Claim C8.  The duplicate-plug check does not depend on the order of the
    phases: for a Test and any Test whose phases are a permutation of its
    phases, [plug_type_map] raises [DuplicatePlugError] on the one exactly
    when it raises it on the other. *)
Theorem plug_type_map_order_independent σ self self' :
  Test.phases self ≡ₚ Test.phases self' →
  raises_DuplicatePlugError (Test.plug_type_map σ self) ↔
  raises_DuplicatePlugError (Test.plug_type_map σ self').
Proof.
  intros Hperm. split; intros [msg Hraise];
    apply plug_type_map_Raise in Hraise as [Hconflict _];
    apply plug_type_map_conflict.
  - by apply (plug_conflict_Permutation σ (Test.phases self)).
  - apply (plug_conflict_Permutation σ (Test.phases self')); [|done].
    by symmetry.
Qed.

Lemma plug_type_map_order_independent_witness :
  raises_DuplicatePlugError
    (Test.plug_type_map example_store (example_test [1; 7; 2]%positive)) ↔
  raises_DuplicatePlugError
    (Test.plug_type_map example_store (example_test [2; 1; 7]%positive)).
Proof.
  apply (plug_type_map_order_independent example_store
           (example_test [1; 7; 2]%positive) (example_test [2; 1; 7]%positive)).
  cbn [Test.phases example_test].
  change [2; 1; 7]%positive with ([2]%positive ++ [1; 7]%positive).
  change [1; 7; 2]%positive with ([1; 7]%positive ++ [2]%positive).
  apply Permutation_app_comm.
Defined.

(** Claim C10.  Constructing a Test with no phase succeeds (nothing rejects
    the empty sequence: the caller's frame is read and the union of no
    parameter list is taken, and whenever these two return so does the
    constructor); the Test has no phase and an empty list of output
    callbacks, and its [plug_type_map] is the empty dict. *)
Theorem Test_without_phases caller Union σ frame params :
  caller = inr frame →
  Union [] = inr params →
  ∃ self, Test.__init__ caller Union σ [] = Return self ∧
          Test.phases self = [] ∧
          Test.output_callbacks self = [] ∧
          ∀ σ', Test.plug_type_map σ' self = Return ∅.
Proof.
  intros -> HUnion. unfold Test.__init__. cbn. rewrite HUnion. cbn.
  eexists. split_and!; done.
Qed.

Lemma Test_without_phases_witness :
  ∃ self, Test.__init__ example_caller example_Union example_store []
            = Return self ∧
          Test.phases self = [] ∧
          Test.output_callbacks self = [] ∧
          ∀ σ', Test.plug_type_map σ' self = Return ∅.
Proof.
  eapply (Test_without_phases example_caller example_Union example_store);
    reflexivity.
Defined.

(** ** Properties of Test construction *)

(** Claim C4, as stated, fails: phases 1 and 2 require the plug [example]
    with two distinct types, yet constructing the Test from them returns;
    [DuplicatePlugError] is raised only later, when [plug_type_map] is read. *)
Lemma construction_ignores_plug_conflict :
  plug_conflict example_store [1; 2]%positive ∧
  ¬ raises_DuplicatePlugError
      (Test.__init__ example_caller example_Union example_store
         [1; 2]%positive) ∧
  ∃ self, Test.__init__ example_caller example_Union example_store
            [1; 2]%positive = Return self ∧
          raises_DuplicatePlugError (Test.plug_type_map example_store self).
Proof.
  split_and!.
  - exists 1%positive, 2%positive, {["example" := 10%positive]},
      {["example" := 20%positive]}, "example", 10%positive, 20%positive.
    split_and!; [set_solver | set_solver | reflexivity | reflexivity
                | reflexivity | reflexivity | discriminate].
  - intros [msg Hraise]. vm_compute in Hraise. discriminate.
  - eexists. split; [reflexivity|]. eexists. vm_compute. reflexivity.
Qed.

(** Claim C4, amended.  Constructing a Test never raises
    [DuplicatePlugError] and computes no plug map: the constructor stores
    the phases as given, with an empty list of output callbacks.  The map is
    computed on each read of the [plug_type_map] property, from the [plugs]
    attributes the phases have at that time, and it is that read which
    raises [DuplicatePlugError], exactly when two phases require one name
    with two distinct types. *)
Theorem plug_conflict_surfaces_at_access caller Union σ phases :
  ¬ raises_DuplicatePlugError (Test.__init__ caller Union σ phases) ∧
  ∀ self, Test.__init__ caller Union σ phases = Return self →
    Test.phases self = phases ∧
    Test.output_callbacks self = [] ∧
    ∀ σ', raises_DuplicatePlugError (Test.plug_type_map σ' self) ↔
          plug_conflict σ' phases.
Proof.
  unfold Test.__init__. split.
  - intros [msg Hraise]. destruct caller as [?|frame]; [done|]. cbn in Hraise.
    by destruct (Union _).
  - intros self Hinit. destruct caller as [?|frame]; [done|]. cbn in Hinit.
    destruct (Union _) as [?|params]; [done|]. injection Hinit as <-.
    split_and!; [done | done |]. intros σ'. split.
    + intros [msg Hraise]. by apply plug_type_map_Raise in Hraise as [? _].
    + apply (plug_type_map_conflict σ' (Test.Build_t _ _ _ _ _ _)).
Qed.

Lemma plug_conflict_surfaces_at_access_witness :
  ∃ self, Test.__init__ example_caller example_Union example_store
            [1; 2]%positive = Return self ∧
    Test.phases self = [1; 2]%positive ∧
    Test.output_callbacks self = [] ∧
    ∀ σ', raises_DuplicatePlugError (Test.plug_type_map σ' self) ↔
          plug_conflict σ' [1; 2]%positive.
Proof.
  eexists. split; [reflexivity|].
  apply (proj2 (plug_conflict_surfaces_at_access example_caller example_Union
                  example_store [1; 2]%positive)).
  reflexivity.
Defined.

(** ** Properties of the TestPhase decorator *)

(** Claim C3, as stated, fails: [def h(test=None)] (function 3) can be
    called with no argument, so its minimum required parameter count is
    zero, yet decorating it returns the function. *)
Lemma TestPhase_accepts_defaulted_parameter :
  min_required_args (example_store 3%positive) = 0%nat ∧
  ¬ raises_InvalidTestPhaseError
      (TestPhase PyNone PyNone 3%positive example_store).1 ∧
  (TestPhase PyNone PyNone 3%positive example_store).1 = Return 3%positive.
Proof.
  split_and!; [reflexivity | | reflexivity].
  intros (f & msg & Hraise). vm_compute in Hraise. discriminate.
Qed.

(** Claim C3, amended.  The decorator counts the named positional
    parameters the function declares, with or without a default: for every
    function that declares none, decoration raises [InvalidTestPhaseError]
    (and sets no attribute); for every function that declares at least one,
    decoration succeeds and returns the function. *)
Theorem TestPhase_checks_declared_parameters timeout_s run_if f σ :
  (length (Phase.args (Phase.argspec (σ f))) = 0%nat →
     raises_InvalidTestPhaseError (TestPhase timeout_s run_if f σ).1 ∧
     (TestPhase timeout_s run_if f σ).2 = σ) ∧
  ((1 ≤ length (Phase.args (Phase.argspec (σ f))))%nat →
     (TestPhase timeout_s run_if f σ).1 = Return f).
Proof.
  split.
  - intros Hargs. rewrite (TestPhase_rejects _ _ _ _ Hargs).
    split; [|done]. by do 2 eexists.
  - intros Hargs.
    destruct (TestPhase_accepts σ f timeout_s run_if Hargs) as (σ' & -> & _).
    done.
Qed.

Lemma TestPhase_checks_declared_parameters_witness :
  (raises_InvalidTestPhaseError
     (TestPhase (PyInt 5) PyNone 4%positive example_store).1 ∧
   (TestPhase (PyInt 5) PyNone 4%positive example_store).2 = example_store) ∧
  (TestPhase (PyInt 5) PyNone 3%positive example_store).1 = Return 3%positive.
Proof.
  split.
  - apply (proj1 (TestPhase_checks_declared_parameters (PyInt 5) PyNone
                    4%positive example_store)).
    reflexivity.
  - apply (proj2 (TestPhase_checks_declared_parameters (PyInt 5) PyNone
                    3%positive example_store)).
    vm_compute. lia.
Defined.

(** Claim C7, as stated, fails: the descriptor is the function object
    itself, and it stays mutable.  Function 1 decorated with a timeout of 5
    seconds carries [timeout_s = 5]; decorating the same object again with a
    timeout of 10 changes the attribute of the first result. *)
Lemma TestPhase_result_is_mutable :
  let r1 := TestPhase (PyInt 5) PyNone 1%positive example_store in
  let r2 := TestPhase (PyInt 10) PyNone 1%positive r1.2 in
  r1.1 = Return 1%positive ∧
  r2.1 = Return 1%positive ∧
  Phase.timeout_s (r1.2 1%positive) = Some (PyInt 5) ∧
  Phase.timeout_s (r2.2 1%positive) = Some (PyInt 10) ∧
  r2.2 1%positive ≠ r1.2 1%positive.
Proof.
  split_and!; [reflexivity | reflexivity | reflexivity | reflexivity |].
  intros Heq. apply (f_equal Phase.timeout_s) in Heq. vm_compute in Heq.
  discriminate.
Qed.

(** Claim C7, amended.  For every function that declares at least one named
    positional parameter, and all options, the decorator returns the very
    object it was given; on that object the timeout and the run condition
    are set as attributes when they are not None, and its signature, its
    [plugs] and its [parameters] are as before; no other object changes.  So
    the plug requirements of every object, and with them the
    [plug_type_map] of every Test, are as before the decoration.  (The
    object stays mutable.) *)
Theorem TestPhase_attaches_metadata timeout_s run_if f σ :
  (1 ≤ length (Phase.args (Phase.argspec (σ f))))%nat →
  ∃ σ', TestPhase timeout_s run_if f σ = (Return f, σ') ∧
    Phase.argspec (σ' f) = Phase.argspec (σ f) ∧
    Phase.timeout_s (σ' f) = (if is_not_None timeout_s then Some timeout_s
                              else Phase.timeout_s (σ f)) ∧
    Phase.run_if (σ' f) = (if is_not_None run_if then Some run_if
                           else Phase.run_if (σ f)) ∧
    Phase.parameters (σ' f) = Phase.parameters (σ f) ∧
    (∀ g, g ≠ f → σ' g = σ g) ∧
    (∀ g, Phase.plugs (σ' g) = Phase.plugs (σ g)) ∧
    (∀ self, Test.plug_type_map σ' self = Test.plug_type_map σ self).
Proof.
  intros Hargs.
  destruct (TestPhase_accepts σ f timeout_s run_if Hargs)
    as (σ' & Hrun & Hothers & Hf).
  assert (Hplugs : ∀ g, Phase.plugs (σ' g) = Phase.plugs (σ g)).
  { intros g. destruct (decide (g = f)) as [->|Hne].
    - by rewrite Hf.
    - by rewrite Hothers. }
  exists σ'. rewrite Hf. cbn. split_and!; try done.
  intros self. unfold Test.plug_type_map, Test.plug_items.
  do 3 f_equal.
  induction (Test.phases self) as [|p ps IH]; [done|].
  cbn [omap list_omap]. by rewrite Hplugs, IH.
Qed.

Lemma TestPhase_attaches_metadata_witness :
  ∃ σ', TestPhase (PyInt 5) (PyRef 9) 1%positive example_store
          = (Return 1%positive, σ') ∧
    Phase.argspec (σ' 1%positive) = Phase.argspec (example_store 1%positive) ∧
    Phase.timeout_s (σ' 1%positive) = Some (PyInt 5) ∧
    Phase.run_if (σ' 1%positive) = Some (PyRef 9) ∧
    Phase.parameters (σ' 1%positive)
      = Phase.parameters (example_store 1%positive) ∧
    (∀ g, g ≠ 1%positive → σ' g = example_store g) ∧
    (∀ g, Phase.plugs (σ' g) = Phase.plugs (example_store g)) ∧
    (∀ self, Test.plug_type_map σ' self
             = Test.plug_type_map example_store self).
Proof.
  apply (TestPhase_attaches_metadata (PyInt 5) (PyRef 9) 1%positive
           example_store).
  vm_compute. lia.
Defined.

(** Claim C9.  Decorating with [timeout_s=None] and [run_if=None] attaches
    nothing: the function comes back as it was, so a [timeout_s] or [run_if]
    attribute that was absent is still absent (it is not set to None) and
    one that was present keeps its value; no object of the store changes. *)
Theorem TestPhase_None_attaches_nothing f σ :
  (TestPhase PyNone PyNone f σ).2 = σ ∧
  ((1 ≤ length (Phase.args (Phase.argspec (σ f))))%nat →
     TestPhase PyNone PyNone f σ = (Return f, σ) ∧
     Phase.timeout_s ((TestPhase PyNone PyNone f σ).2 f)
       = Phase.timeout_s (σ f) ∧
     Phase.run_if ((TestPhase PyNone PyNone f σ).2 f) = Phase.run_if (σ f)).
Proof.
  unfold TestPhase. cbn [is_not_None].
  destruct (decide (_ < 1)%nat) as [Hlt|_]; (split; [done|]);
    intros Hargs; [lia | done].
Qed.

Lemma TestPhase_None_attaches_nothing_witness :
  TestPhase PyNone PyNone 3%positive example_store
    = (Return 3%positive, example_store) ∧
  Phase.timeout_s ((TestPhase PyNone PyNone 3%positive example_store).2
                     3%positive) = None ∧
  Phase.run_if ((TestPhase PyNone PyNone 3%positive example_store).2
                  3%positive) = None.
Proof.
  apply (proj2 (TestPhase_None_attaches_nothing 3%positive example_store)).
  vm_compute. lia.
Defined.

(** ** Properties of the output callbacks *)

(** Claim C5, as stated, fails: with callback 1 (which raises) registered
    before callback 2, [OutputTestRecord] raises what callback 1 raised and
    callback 2 is never invoked. *)
Lemma OutputTestRecord_stops_at_raising_callback :
  let self := Test.self (example_process [1; 2]%positive) in
  let r := Test.OutputTestRecord example_call self PyNone example_world in
  Test.output_callbacks self = [1; 2]%positive ∧
  r.1 = Raise (ExternalError "disk full") ∧
  Test.invoked r.2 = [1]%positive ∧
  Test.invoked r.2 ≠ Test.invoked example_world ++ Test.output_callbacks self.
Proof. split_and!; [reflexivity | reflexivity | reflexivity | discriminate]. Qed.

(** Claim C5, amended.  For every test record and every list of registered
    output callbacks, [OutputTestRecord] invokes the callbacks in
    registration order, each once, up to and including the first one that
    raises: when no callback raises, every callback has been invoked exactly
    once, in registration order, and [OutputTestRecord] returns; when one
    raises, after those registered before it have returned, its exception
    leaves [OutputTestRecord] and the callbacks registered after it are not
    invoked.  One of the two is always the case. *)
Theorem OutputTestRecord_in_registration_order {W}
    (call : loc → pyval → W → result pyval * W) self test_record w :
  (∀ o',
     returns_in_turn call test_record (Test.output_callbacks self)
       (Test.outside w) o' →
     Test.OutputTestRecord call self test_record w
     = (Return (),
        {| Test.outside := o';
           Test.invoked := Test.invoked w ++ Test.output_callbacks self |})) ∧
  (∀ before cb later o1 e o',
     Test.output_callbacks self = before ++ cb :: later →
     returns_in_turn call test_record before (Test.outside w) o1 →
     call cb test_record o1 = (Raise e, o') →
     Test.OutputTestRecord call self test_record w
     = (Raise e,
        {| Test.outside := o';
           Test.invoked := Test.invoked w ++ before ++ [cb] |})) ∧
  ((∃ o', returns_in_turn call test_record (Test.output_callbacks self)
            (Test.outside w) o') ∨
   (∃ before cb later o1 e o',
      Test.output_callbacks self = before ++ cb :: later ∧
      returns_in_turn call test_record before (Test.outside w) o1 ∧
      call cb test_record o1 = (Raise e, o'))).
Proof.
  unfold Test.OutputTestRecord. split_and!.
  - intros o' Hturn. by apply for_output_cb_returns.
  - intros before cb later o1 e o' -> Hturn Hraise.
    rewrite for_output_cb_app, (for_output_cb_returns _ _ _ _ _ Hturn).
    cbn [Test.for_output_cb]. unfold Test.invoke.
    cbn [Test.outside Test.invoked]. rewrite Hraise.
    by rewrite <- app_assoc.
  - apply returns_in_turn_or_raises.
Qed.

Lemma OutputTestRecord_in_registration_order_witness :
  Test.OutputTestRecord example_call
    (Test.self (example_process [3; 2]%positive)) PyNone example_world
  = (Return (),
     {| Test.outside := 2%nat; Test.invoked := [3; 2]%positive |}) ∧
  Test.OutputTestRecord example_call
    (Test.self (example_process [3; 1; 2]%positive)) PyNone example_world
  = (Raise (ExternalError "disk full"),
     {| Test.outside := 1%nat; Test.invoked := [3; 1]%positive |}).
Proof.
  split.
  - apply (proj1 (OutputTestRecord_in_registration_order example_call
                    (Test.self (example_process [3; 2]%positive)) PyNone
                    example_world) 2%nat).
    eapply returns_in_turn_cons; [reflexivity|].
    eapply returns_in_turn_cons; [reflexivity|].
    apply returns_in_turn_nil.
  - apply (proj1 (proj2 (OutputTestRecord_in_registration_order example_call
                    (Test.self (example_process [3; 1; 2]%positive)) PyNone
                    example_world))
             [3]%positive 1%positive [2]%positive 1%nat
             (ExternalError "disk full") 1%nat).
    + reflexivity.
    + eapply returns_in_turn_cons; [reflexivity|]. apply returns_in_turn_nil.
    + reflexivity.
Defined.

(** Claim C6, as stated, fails: nothing closes the registration.  After
    [Execute] has been called, [AddOutputCallback] still appends to the
    list, and the next run that a cell finishes invokes the new callback. *)
Lemma AddOutputCallback_after_Execute :
  let p := Test.run example_call [Test.CallExecute] (example_process []) in
  let p' := Test.step example_call p (Test.CallAddOutputCallback 2%positive) in
  Test.executing p = true ∧
  Test.output_callbacks (Test.self p) = [] ∧
  Test.output_callbacks (Test.self p') = [2]%positive ∧
  Test.invoked
    (Test.env (Test.step example_call p (Test.CellFinishesRun PyNone))) = [] ∧
  Test.invoked
    (Test.env (Test.step example_call p' (Test.CellFinishesRun PyNone)))
    = [2]%positive.
Proof. split_and!; reflexivity. Qed.

(** Claim C6, amended.  [AddOutputCallback] always returns and always
    appends the callback to the list of output callbacks, whether or not
    [Execute] has been called: after any sequence of calls, the list is the
    list before it followed by every callback registered since, in order,
    and a run finishing then hands its record to the callbacks of that
    list, the late ones included. *)
Theorem AddOutputCallback_always_appends {W}
    (call : loc → pyval → W → result pyval * W) evs p :
  let p' := Test.run call evs p in
  Test.output_callbacks (Test.self p')
    = Test.output_callbacks (Test.self p) ++ Test.registered evs ∧
  ∀ test_record,
    Test.env (Test.step call p' (Test.CellFinishesRun test_record))
    = (Test.for_output_cb call
         (Test.output_callbacks (Test.self p) ++ Test.registered evs)
         test_record (Test.env p')).2.
Proof.
  cbn zeta.
  assert (Hlist : Test.output_callbacks (Test.self (Test.run call evs p))
            = Test.output_callbacks (Test.self p) ++ Test.registered evs).
  { induction evs as [|ev evs IH] using rev_ind.
    - cbn. by rewrite app_nil_r.
    - rewrite run_snoc. unfold Test.registered in *. rewrite omap_app.
      destruct ev; cbn; rewrite IH; by rewrite ?app_assoc, ?app_nil_r. }
  split; [done|]. intros test_record. cbn. unfold Test.OutputTestRecord.
  by rewrite Hlist.
Qed.

(** ** Further properties of plug_type_map *)

(** X1.  Whenever [plug_type_map] raises, it raises [DuplicatePlugError]
    with the message "Duplicate plug with different type: " followed by a
    plug name that two phases of the Test do require with two distinct
    types. *)
Theorem plug_type_map_names_conflicting_plug σ self e :
  Test.plug_type_map σ self = Raise e →
  ∃ name p1 p2 m1 m2 ty1 ty2,
    e = DuplicatePlugError ("Duplicate plug with different type: " +:+ name) ∧
    p1 ∈ Test.phases self ∧ p2 ∈ Test.phases self ∧
    Phase.plugs (σ p1) = Some m1 ∧ Phase.plugs (σ p2) = Some m2 ∧
    m1 !! name = Some ty1 ∧ m2 !! name = Some ty2 ∧ ty1 ≠ ty2.
Proof.
  intros (name & ty & ty' & -> & Hin & [Hempty|Hin'] & Hne)%plug_loop_Raise.
  { by rewrite lookup_empty in Hempty. }
  apply elem_of_plug_items in Hin as (p1 & m1 & Hp1 & Hm1 & Hty).
  apply elem_of_plug_items in Hin' as (p2 & m2 & Hp2 & Hm2 & Hty').
  by exists name, p1, p2, m1, m2, ty, ty'.
Qed.

Lemma plug_type_map_names_conflicting_plug_witness :
  ∃ name p1 p2 m1 m2 ty1 ty2,
    DuplicatePlugError "Duplicate plug with different type: example"
      = DuplicatePlugError ("Duplicate plug with different type: " +:+ name) ∧
    p1 ∈ [1; 7; 2]%positive ∧ p2 ∈ [1; 7; 2]%positive ∧
    Phase.plugs (example_store p1) = Some m1 ∧
    Phase.plugs (example_store p2) = Some m2 ∧
    m1 !! name = Some ty1 ∧ m2 !! name = Some ty2 ∧ ty1 ≠ ty2.
Proof.
  apply (plug_type_map_names_conflicting_plug example_store
           (example_test [1; 7; 2]%positive)).
  vm_compute. reflexivity.
Defined.

(** X2.  The map returned depends on which phases the Test has, not on
    their order nor on how often each occurs: when [plug_type_map] returns
    a dict for one Test, it returns the same dict for every Test with the
    same set of phases. *)
Theorem plug_type_map_same_phases σ self self' m :
  (∀ p, p ∈ Test.phases self ↔ p ∈ Test.phases self') →
  Test.plug_type_map σ self = Return m →
  Test.plug_type_map σ self' = Return m.
Proof.
  intros Hsame [Hfree Hm]%plug_type_map_Return.
  destruct (plug_type_map_free σ self') as (m' & -> & Hm').
  { intros Hconflict. apply Hfree.
    eapply plug_conflict_subseteq; [|done]. intros p. apply Hsame. }
  f_equal. apply (anti_symm (⊆)).
  - apply (is_plug_union_subseteq σ (Test.phases self') (Test.phases self));
      [|done..]. intros p. apply Hsame.
  - apply (is_plug_union_subseteq σ (Test.phases self) (Test.phases self'));
      [|done..]. intros p. apply Hsame.
Qed.

Lemma plug_type_map_same_phases_witness :
  Test.plug_type_map example_store (example_test [5; 1; 5; 7]%positive)
  = Return (<["scope" := 30%positive]> {["example" := 10%positive]}).
Proof.
  apply (plug_type_map_same_phases example_store
           (example_test [1; 5; 7]%positive)
           (example_test [5; 1; 5; 7]%positive)).
  - intros p. cbn [Test.phases example_test].
    rewrite !elem_of_cons, !elem_of_nil. tauto.
  - vm_compute. reflexivity.
Defined.

(** X3.  Taking phases away never creates a conflict and only shrinks the
    map: when [plug_type_map] returns for a Test, it returns for every Test
    whose phases are among those of the first, and the dict it returns is
    contained in the first one. *)
Theorem plug_type_map_fewer_phases σ self self' m' :
  Test.phases self ⊆ Test.phases self' →
  Test.plug_type_map σ self' = Return m' →
  ∃ m, Test.plug_type_map σ self = Return m ∧ m ⊆ m'.
Proof.
  intros Hsub [Hfree Hm']%plug_type_map_Return.
  destruct (plug_type_map_free σ self) as (m & Hmap & Hm).
  { intros Hconflict. apply Hfree. by eapply plug_conflict_subseteq. }
  exists m. split; [done|]. by eapply is_plug_union_subseteq.
Qed.

Lemma plug_type_map_fewer_phases_witness :
  ∃ m, Test.plug_type_map example_store (example_test [7; 1]%positive)
         = Return m ∧
       m ⊆ <["scope" := 30%positive]> {["example" := 10%positive]}.
Proof.
  apply (plug_type_map_fewer_phases example_store
           (example_test [7; 1]%positive) (example_test [1; 5; 7]%positive)).
  - intros p. cbn [Test.phases example_test].
    rewrite !elem_of_cons, !elem_of_nil. tauto.
  - vm_compute. reflexivity.
Defined.

(** X4.  For a Test with one phase, [plug_type_map] returns a dict equal to
    the [plugs] dict of that phase (the items of the dict, entered one by
    one into a new dict, give the dict back), and the empty dict when the
    phase has no [plugs] attribute. *)
Theorem plug_type_map_single_phase σ self p :
  Test.phases self = [p] →
  Test.plug_type_map σ self = Return (default ∅ (Phase.plugs (σ p))).
Proof.
  intros Hphases.
  destruct (plug_type_map_free σ self) as (m & -> & Hm).
  { rewrite Hphases.
    intros (p1 & p2 & m1 & m2 & name & ty1 & ty2
            & ->%list_elem_of_singleton & ->%list_elem_of_singleton
            & Hm1 & Hm2 & Hty1 & Hty2 & Hne).
    congruence. }
  f_equal. apply map_eq. intros name. apply option_eq. intros ty.
  rewrite (Hm name ty), Hphases. split.
  - intros (p' & pm & ->%list_elem_of_singleton & -> & Hty). done.
  - destruct (Phase.plugs (σ p)) as [pm|] eqn:Hpm; cbn.
    + intros Hty. exists p, pm. split_and!; [set_solver | done | done].
    + by rewrite lookup_empty.
Qed.

Lemma plug_type_map_single_phase_witness :
  Test.plug_type_map example_store (example_test [5]%positive)
  = Return (default ∅ (Phase.plugs (example_store 5%positive))).
Proof.
  apply (plug_type_map_single_phase example_store (example_test [5]%positive)).
  reflexivity.
Defined.

(** X5.  [plug_type_map] returns the empty dict exactly when no phase
    requires a plug: every phase of the Test has no [plugs] attribute or an
    empty [plugs] dict. *)
Theorem plug_type_map_empty σ self :
  Test.plug_type_map σ self = Return ∅ ↔
  ∀ p, p ∈ Test.phases self →
       Phase.plugs (σ p) = None ∨ Phase.plugs (σ p) = Some ∅.
Proof.
  split.
  - intros [_ Hunion]%plug_type_map_Return p Hp.
    destruct (Phase.plugs (σ p)) as [pm|] eqn:Hpm; [right|by left].
    f_equal. apply map_empty. intros name.
    destruct (pm !! name) as [ty|] eqn:Hty; [|done].
    assert (Hlook : (∅ : gmap string plug_type) !! name = Some ty).
    { apply Hunion. by exists p, pm. }
    by rewrite lookup_empty in Hlook.
  - intros Hnone.
    destruct (plug_type_map_free σ self) as (m & -> & Hm).
    { intros (p1 & _ & m1 & _ & name & ty1 & _ & Hp1 & _ & Hm1 & _ & Hty1 & _).
      destruct (Hnone _ Hp1) as [Heq|Heq]; rewrite Heq in Hm1; [done|].
      injection Hm1 as <-. by rewrite lookup_empty in Hty1. }
    f_equal. apply map_empty. intros name.
    destruct (m !! name) as [ty|] eqn:Hty; [|done].
    apply Hm in Hty as (p & pm & Hp & Hpm & Hlook).
    destruct (Hnone _ Hp) as [Heq|Heq]; rewrite Heq in Hpm; [done|].
    injection Hpm as <-. by rewrite lookup_empty in Hlook.
Qed.

(** ** Further properties of the decorator and of construction *)

(** X6.  Decorating an accepted function twice is decorating it once with
    the options merged: for each option the later value wins unless it is
    None, in which case the earlier one stays.  The second decoration is
    accepted too, and every object of the store ends the same either way. *)
Theorem TestPhase_twice timeout_s1 run_if1 timeout_s2 run_if2 f σ :
  (1 ≤ length (Phase.args (Phase.argspec (σ f))))%nat →
  let σ1 := (TestPhase timeout_s1 run_if1 f σ).2 in
  (TestPhase timeout_s2 run_if2 f σ1).1 = Return f ∧
  ∀ g, (TestPhase timeout_s2 run_if2 f σ1).2 g
       = (TestPhase (later_option timeout_s1 timeout_s2)
                    (later_option run_if1 run_if2) f σ).2 g.
Proof.
  intros Hargs. cbn zeta.
  destruct (TestPhase_accepts σ f timeout_s1 run_if1 Hargs)
    as (σ1 & -> & Hothers1 & Hf1). cbn [snd].
  destruct (TestPhase_accepts σ1 f timeout_s2 run_if2)
    as (σ2 & -> & Hothers2 & Hf2); [by rewrite Hf1|].
  destruct (TestPhase_accepts σ f (later_option timeout_s1 timeout_s2)
              (later_option run_if1 run_if2) Hargs)
    as (σ' & -> & Hothers' & Hf'). cbn [fst snd].
  split; [done|]. intros g. destruct (decide (g = f)) as [->|Hne].
  - rewrite Hf2, Hf', Hf1. cbn. unfold later_option.
    by destruct (is_not_None timeout_s2) eqn:Ht2,
                (is_not_None run_if2) eqn:Hr2; rewrite ?Ht2, ?Hr2.
  - by rewrite Hothers2, Hothers1, Hothers'.
Qed.

Lemma TestPhase_twice_witness :
  let σ1 := (TestPhase (PyInt 5) PyNone 1%positive example_store).2 in
  (TestPhase PyNone (PyRef 9) 1%positive σ1).1 = Return 1%positive ∧
  ∀ g, (TestPhase PyNone (PyRef 9) 1%positive σ1).2 g
       = (TestPhase (later_option (PyInt 5) PyNone)
                    (later_option PyNone (PyRef 9)) 1%positive
                    example_store).2 g.
Proof.
  apply (TestPhase_twice (PyInt 5) PyNone PyNone (PyRef 9) 1%positive
           example_store).
  vm_compute. lia.
Defined.

(** X7.  The decorator never removes an attribute: a [timeout_s] or a
    [run_if] attribute that an object has before a decoration, of that
    object or of any other, accepted or rejected, it still has after it. *)
Theorem TestPhase_keeps_attributes timeout_s run_if g f σ :
  (is_Some (Phase.timeout_s (σ f)) →
     is_Some (Phase.timeout_s ((TestPhase timeout_s run_if g σ).2 f))) ∧
  (is_Some (Phase.run_if (σ f)) →
     is_Some (Phase.run_if ((TestPhase timeout_s run_if g σ).2 f))).
Proof.
  destruct (decide (length (Phase.args (Phase.argspec (σ g))) = 0%nat))
    as [Hnone|Hsome].
  { by rewrite (TestPhase_rejects _ _ _ _ Hnone). }
  destruct (TestPhase_accepts σ g timeout_s run_if) as (σ' & -> & Hothers & Hg);
    [lia|]. cbn [snd].
  destruct (decide (f = g)) as [->|Hne].
  - rewrite Hg. cbn.
    split; intros Hset; [destruct (is_not_None timeout_s)
                        |destruct (is_not_None run_if)]; by eauto.
  - by rewrite (Hothers _ Hne).
Qed.

Lemma TestPhase_keeps_attributes_witness :
  let σ1 := (TestPhase (PyInt 5) (PyRef 9) 1%positive example_store).2 in
  is_Some (Phase.timeout_s ((TestPhase PyNone PyNone 1%positive σ1).2 1%positive)) ∧
  is_Some (Phase.run_if ((TestPhase (PyInt 7) PyNone 2%positive σ1).2 1%positive)).
Proof.
  cbn zeta. split.
  - apply (proj1 (TestPhase_keeps_attributes PyNone PyNone 1%positive 1%positive
                    (TestPhase (PyInt 5) (PyRef 9) 1%positive example_store).2)).
    vm_compute. eauto.
  - apply (proj2 (TestPhase_keeps_attributes (PyInt 7) PyNone 2%positive
                    1%positive
                    (TestPhase (PyInt 5) (PyRef 9) 1%positive example_store).2)).
    vm_compute. eauto.
Defined.

(** X8.  Constructing a Test does not look at what the decorator sets:
    built from the same phases before or after any decoration (accepted or
    rejected), the constructor gives the same outcome, Test or exception. *)
Theorem Test_init_after_TestPhase caller Union timeout_s run_if f σ phases :
  Test.__init__ caller Union (TestPhase timeout_s run_if f σ).2 phases
  = Test.__init__ caller Union σ phases.
Proof.
  unfold Test.__init__.
  assert (Hparams :
    omap (fun phase => Phase.parameters ((TestPhase timeout_s run_if f σ).2 phase))
         phases
    = omap (fun phase => Phase.parameters (σ phase)) phases).
  { induction phases as [|p phases IH]; [done|]. cbn [omap list_omap].
    destruct (TestPhase_frame timeout_s run_if f σ p) as (_ & _ & ->).
    by rewrite IH. }
  by rewrite Hparams.
Qed.

(** ** Further properties of the output callbacks *)

(** X9.  Registering one more callback extends what [OutputTestRecord]
    does at its end: the callbacks registered before run as they did, and
    if all of them returned the new callback is invoked last, on the world
    they left; if one of them raised, the new callback is not invoked. *)
Theorem OutputTestRecord_after_AddOutputCallback {W}
    (call : loc → pyval → W → result pyval * W) self callback test_record w :
  Test.OutputTestRecord call (Test.AddOutputCallback self callback)
    test_record w
  = match Test.OutputTestRecord call self test_record w with
    | (Return _, w') =>
        match Test.invoke call callback test_record w' with
        | (Return _, w'') => (Return (), w'')
        | (Raise e, w'') => (Raise e, w'')
        end
    | (Raise e, w') => (Raise e, w')
    end.
Proof.
  unfold Test.OutputTestRecord. cbn [Test.AddOutputCallback Test.output_callbacks].
  rewrite for_output_cb_app.
  destruct (Test.for_output_cb call _ test_record w) as [[[]|e] w']; [|done].
  cbn [Test.for_output_cb].
  by destruct (Test.invoke call callback test_record w') as [[v|e] w''].
Qed.

(** X10.  A Test as constructed has nobody to hand a record to:
    [OutputTestRecord] on it returns without invoking anything and leaves
    the world as it was, whatever the phases and the record. *)
Theorem OutputTestRecord_of_new_Test {W}
    (call : loc → pyval → W → result pyval * W)
    caller Union σ phases self test_record w :
  Test.__init__ caller Union σ phases = Return self →
  Test.OutputTestRecord call self test_record w = (Return (), w).
Proof.
  unfold Test.__init__. intros Hinit.
  destruct caller as [?|frame]; [done|]. cbn in Hinit.
  destruct (Union _) as [?|params]; [done|]. by injection Hinit as <-.
Qed.

Lemma OutputTestRecord_of_new_Test_witness :
  Test.OutputTestRecord example_call (example_test [1; 2]%positive) PyNone
    example_world
  = (Return (), example_world).
Proof.
  apply (OutputTestRecord_of_new_Test example_call example_caller example_Union
           example_store [1; 2]%positive).
  reflexivity.
Defined.

(** ** Properties of OutputToJson._ConvertToDict *)

(** X11.  The value [_ConvertToDict] returns holds no namedtuple: not
    itself, nor among the values of its dicts or the elements of its lists
    and tuples, at any depth. *)
Theorem _ConvertToDict_no_namedtuple obj :
  has_namedtuple (OutputToJson._ConvertToDict obj) = false.
Proof.
  induction obj as [v|typename fields IH|items IH|elems IH|elems IH]
    using pyobj_values_ind; cbn [OutputToJson._ConvertToDict has_namedtuple].
  - done.
  - induction IH as [|[key value] fields Hvalue _ IHfields]; [done|].
    cbn in *. by rewrite Hvalue, IHfields.
  - induction IH as [|[key value] items Hvalue _ IHitems]; [done|].
    cbn in *. by rewrite Hvalue, IHitems.
  - induction IH as [|x elems Hx _ IHelems]; [done|].
    cbn in *. by rewrite Hx, IHelems.
  - induction IH as [|x elems Hx _ IHelems]; [done|].
    cbn in *. by rewrite Hx, IHelems.
Qed.

(** X12.  A value that holds no namedtuple is returned by
    [_ConvertToDict] as it is: the value returned equals the value
    passed. *)
Theorem _ConvertToDict_plain obj :
  has_namedtuple obj = false →
  OutputToJson._ConvertToDict obj = obj.
Proof.
  induction obj as [v|typename fields IH|items IH|elems IH|elems IH]
    using pyobj_values_ind;
    cbn [OutputToJson._ConvertToDict has_namedtuple]; intros Hplain.
  - done.
  - done.
  - f_equal. induction IH as [|[key value] items Hvalue _ IHitems]; [done|].
    cbn in *. apply orb_false_iff in Hplain as [Hv Hrest].
    by rewrite (Hvalue Hv), (IHitems Hrest).
  - f_equal. induction IH as [|x elems Hx _ IHelems]; [done|].
    cbn in *. apply orb_false_iff in Hplain as [Hv Hrest].
    by rewrite (Hx Hv), (IHelems Hrest).
  - f_equal. induction IH as [|x elems Hx _ IHelems]; [done|].
    cbn in *. apply orb_false_iff in Hplain as [Hv Hrest].
    by rewrite (Hx Hv), (IHelems Hrest).
Qed.

Lemma _ConvertToDict_plain_witness :
  OutputToJson._ConvertToDict example_plain = example_plain.
Proof. apply (_ConvertToDict_plain example_plain). reflexivity. Defined.

(** X13.  [_ConvertToDict] is idempotent: a value it has returned is
    returned unchanged when converted again. *)
Theorem _ConvertToDict_idempotent obj :
  OutputToJson._ConvertToDict (OutputToJson._ConvertToDict obj)
  = OutputToJson._ConvertToDict obj.
Proof.
  induction obj as [v|typename fields IH|items IH|elems IH|elems IH]
    using pyobj_values_ind; cbn [OutputToJson._ConvertToDict].
  - done.
  - f_equal. rewrite map_map.
    induction IH as [|[key value] fields Hvalue _ IHfields]; [done|].
    cbn in *. by rewrite Hvalue, IHfields.
  - f_equal. rewrite map_map.
    induction IH as [|[key value] items Hvalue _ IHitems]; [done|].
    cbn in *. by rewrite Hvalue, IHitems.
  - f_equal. rewrite map_map.
    induction IH as [|x elems Hx _ IHelems]; [done|].
    cbn in *. by rewrite Hx, IHelems.
  - f_equal. rewrite map_map.
    induction IH as [|x elems Hx _ IHelems]; [done|].
    cbn in *. by rewrite Hx, IHelems.
Qed.

(** X14.  [_ConvertToDict] keeps every value where it was.  The plain
    values held in the value returned are those held in the object passed,
    in the same order.  A namedtuple is returned as a dict and every other
    value as a value of its own kind (a list as a list, a tuple as a
    tuple, a dict as a dict); a dict keeps its keys, in order, and the dict
    made of a namedtuple has its field names as keys, in field order.
    Whatever is found in the object along a path of keys, field names and
    indexes is found along the same path in the value returned, after its
    own conversion, and nothing else is found there. *)
Theorem _ConvertToDict_held_values obj :
  held_values (OutputToJson._ConvertToDict obj) = held_values obj ∧
  kind_of (OutputToJson._ConvertToDict obj)
    = match kind_of obj with KNamedTuple => KDict | k => k end ∧
  keys_of (OutputToJson._ConvertToDict obj) = keys_of obj ∧
  ∀ path, get path (OutputToJson._ConvertToDict obj)
          = OutputToJson._ConvertToDict <$> get path obj.
Proof.
  split_and!.
  - induction obj as [v|typename fields IH|items IH|elems IH|elems IH]
      using pyobj_values_ind; cbn [OutputToJson._ConvertToDict held_values].
    + done.
    + induction IH as [|[key value] fields Hvalue _ IHfields]; [done|].
      cbn in *. by rewrite Hvalue, IHfields.
    + induction IH as [|[key value] items Hvalue _ IHitems]; [done|].
      cbn in *. by rewrite Hvalue, IHitems.
    + induction IH as [|x elems Hx _ IHelems]; [done|].
      cbn in *. by rewrite Hx, IHelems.
    + induction IH as [|x elems Hx _ IHelems]; [done|].
      cbn in *. by rewrite Hx, IHelems.
  - by destruct obj.
  - destruct obj as [v|typename fields|items|elems|elems];
      cbn [OutputToJson._ConvertToDict keys_of]; [done| | |done|done];
      rewrite map_map; apply map_ext; by intros [key value].
  - intros path. revert obj.
    induction path as [|a path IH]; intros obj; [done|].
    cbn [get].
    assert (Hstep : get_step a (OutputToJson._ConvertToDict obj)
                    = OutputToJson._ConvertToDict <$> get_step a obj).
    { destruct a as [k|i], obj as [v|typename fields|items|elems|elems];
        cbn [OutputToJson._ConvertToDict get_step]; try done.
      - unfold find_value, find_field.
        induction fields as [|[key value] fields IHfields]; [done|].
        cbn -[pyval_eqb].
        destruct (pyval_eqb (PyStr key) k); [done|apply IHfields].
      - unfold find_value.
        induction items as [|[key value] items IHitems]; [done|].
        cbn -[pyval_eqb]. destruct key as [k'| | | |]; try apply IHitems.
        destruct (pyval_eqb k' k); [done|apply IHitems].
      - apply list_lookup_fmap.
      - apply list_lookup_fmap. }
    rewrite Hstep. destruct (get_step a obj) as [x|]; [apply IH|done].
Qed.

(** X15.  An object that holds no namedtuple is not modified by
    [_ConvertToDict]: after the call it is as it was before. *)
Theorem _ConvertToDict_argument_plain obj :
  has_namedtuple obj = false →
  OutputToJson._ConvertToDict_argument obj = obj.
Proof.
  assert (Hreturned : ∀ value,
    has_namedtuple value = false → OutputToJson._ConvertToDict value = value).
  { intros value.
    induction value as [v|typename fields IH|items IH|elems IH|elems IH]
      using pyobj_values_ind;
      cbn [OutputToJson._ConvertToDict has_namedtuple]; intros Hplain;
      [done | done | f_equal..].
    - induction IH as [|[key value] items Hvalue _ IHitems]; [done|].
      cbn in *. apply orb_false_iff in Hplain as [Hv Hrest].
      by rewrite (Hvalue Hv), (IHitems Hrest).
    - induction IH as [|x elems Hx _ IHelems]; [done|].
      cbn in *. apply orb_false_iff in Hplain as [Hv Hrest].
      by rewrite (Hx Hv), (IHelems Hrest).
    - induction IH as [|x elems Hx _ IHelems]; [done|].
      cbn in *. apply orb_false_iff in Hplain as [Hv Hrest].
      by rewrite (Hx Hv), (IHelems Hrest). }
  induction obj as [v|typename fields IH|items _|elems IH|elems IH]
    using pyobj_values_ind;
    cbn [OutputToJson._ConvertToDict_argument has_namedtuple]; intros Hplain;
    [done | done | f_equal..].
  - induction items as [|[key value] items IHitems]; [done|].
    cbn in *. apply orb_false_iff in Hplain as [Hv Hrest].
    by rewrite (Hreturned _ Hv), (IHitems Hrest).
  - induction IH as [|x elems Hx _ IHelems]; [done|].
    cbn in *. apply orb_false_iff in Hplain as [Hv Hrest].
    by rewrite (Hx Hv), (IHelems Hrest).
  - induction IH as [|x elems Hx _ IHelems]; [done|].
    cbn in *. apply orb_false_iff in Hplain as [Hv Hrest].
    by rewrite (Hx Hv), (IHelems Hrest).
Qed.

Lemma _ConvertToDict_argument_plain_witness :
  OutputToJson._ConvertToDict_argument example_plain = example_plain.
Proof. apply (_ConvertToDict_argument_plain example_plain). reflexivity. Defined.

(** X16.  Calling [_ConvertToDict] a second time on the same object is
    harmless, although the first call has updated the dicts it holds in
    place: the second call returns a value equal to the first, and leaves
    the object as the first call left it. *)
Theorem _ConvertToDict_second_call obj :
  OutputToJson._ConvertToDict (OutputToJson._ConvertToDict_argument obj)
    = OutputToJson._ConvertToDict obj ∧
  OutputToJson._ConvertToDict_argument (OutputToJson._ConvertToDict_argument obj)
    = OutputToJson._ConvertToDict_argument obj.
Proof.
  enough (Hall :
    OutputToJson._ConvertToDict (OutputToJson._ConvertToDict obj)
      = OutputToJson._ConvertToDict obj ∧
    OutputToJson._ConvertToDict (OutputToJson._ConvertToDict_argument obj)
      = OutputToJson._ConvertToDict obj ∧
    OutputToJson._ConvertToDict_argument
      (OutputToJson._ConvertToDict_argument obj)
      = OutputToJson._ConvertToDict_argument obj) by tauto.
  induction obj as [v|typename fields IH|items IH|elems IH|elems IH]
    using pyobj_values_ind;
    cbn [OutputToJson._ConvertToDict OutputToJson._ConvertToDict_argument].
  - done.
  - rewrite !map_map.
    split_and!; f_equal;
      (induction IH as [|[key value] fields (H1 & H2 & H3) _ IHfields];
       [done|]; cbn in *; by rewrite ?H1, ?H2, ?H3, IHfields).
  - rewrite !map_map.
    split_and!; f_equal;
      (induction IH as [|[key value] items (H1 & H2 & H3) _ IHitems];
       [done|]; cbn in *; by rewrite ?H1, ?H2, ?H3, IHitems).
  - rewrite !map_map.
    split_and!; f_equal;
      (induction IH as [|x elems (H1 & H2 & H3) _ IHelems];
       [done|]; cbn in *; by rewrite ?H1, ?H2, ?H3, IHelems).
  - rewrite !map_map.
    split_and!; f_equal;
      (induction IH as [|x elems (H1 & H2 & H3) _ IHelems];
       [done|]; cbn in *; by rewrite ?H1, ?H2, ?H3, IHelems).
Qed.
